(** * The HTML template language service bridge

    A shallow embedding of [src/html-template-language-service.ts]: the
    single-slot completions cache, the facade operations
    ([getCompletionsAtPosition], [getCompletionEntryDetails],
    [getQuickInfoAtPosition], [getFormattingEditsForRange]) and the result
    translators, together with the properties the specification states
    about them.

    Conventions.
    - A JavaScript string is the list of its UTF-16 code units; [===] on
      strings is equality of these lists and [.length] is their length.
    - A JavaScript number that the code only ever uses as an offset, a
      line, a column or an enumeration value is an integer of [Z].
    - An optional field ([x?: T], [T | undefined]) is an [option].
    - The delegated HTML language service is an external object.  Its
      operations are section variables that receive the history of the
      calls made to the service so far, so that nothing is assumed about
      the service being free of hidden state. *)

From Stdlib Require Import List ZArith NArith Bool Lia String Ascii Arith.
Import ListNotations.

Set Implicit Arguments.

Local Open Scope Z_scope.

(** ** JavaScript strings *)

Module Js.

Definition String := list N.

(** Code units of a literal written with 8-bit characters. *)
Definition lit (s : string) : String :=
  List.map N_of_ascii (list_ascii_of_string s).

(** [a === b] on two strings. *)
Fixpoint str_eqb (a b : String) : bool :=
  match a, b with
  | [], [] => true
  | x :: a', y :: b' => N.eqb x y && str_eqb a' b'
  | _, _ => false
  end.

(** [a === b] where [b] may be [undefined]. *)
Definition str_eqb_undef (a : String) (b : option String) : bool :=
  match b with
  | Some b' => str_eqb a b'
  | None => false
  end.

(** Truthiness of a string: every string but the empty one. *)
Definition truthy_str (s : String) : bool :=
  match s with
  | [] => false
  | _ :: _ => true
  end.

(** Truthiness of a number that is an integer: every one but [0]. *)
Definition truthy_num (n : Z) : bool := negb (n =? 0).

(** An object with its identity: two references are [===] exactly when
    their identities agree. *)
Record Object (A : Type) : Type := mkObject {
  identity : nat;
  contents : A
}.

Definition ref_eqb {A} (x y : Object A) : bool :=
  Nat.eqb (identity x) (identity y).

End Js.

(** ** Data shapes of the two libraries *)

(** [ts.LineAndCharacter] and [vscode.Position] are the same shape. *)
Record LineAndCharacter : Type := mkPosition {
  line : Z;
  character : Z
}.

Definition Position := LineAndCharacter.

Record Range : Type := mkRange {
  range_start : Position;
  range_end : Position
}.

Record TextSpan : Type := mkTextSpan {
  span_start : Z;
  span_length : Z
}.

Record SymbolDisplayPart : Type := mkSymbolDisplayPart {
  part_text : Js.String;
  part_kind : Js.String
}.

(** The members of [ts.ScriptElementKind] that the bridge produces.  The
    [typescript] argument that the source threads through its translators
    only supplies this enumeration. *)
Module ScriptElementKind.
Inductive t : Type :=
| unknown
| memberFunctionElement
| functionElement
| constructorImplementationElement
| variableElement
| classElement
| interfaceElement
| moduleElement
| memberVariableElement
| constElement
| enumElement
| keyword
| alias.
End ScriptElementKind.

(** [vscode.CompletionItemKind] is a numeric enumeration; the values are
    those of the language server protocol. *)
Module CompletionItemKind.
Definition Text : Z := 1.
Definition Method : Z := 2.
Definition Function_ : Z := 3.
Definition Constructor : Z := 4.
Definition Field : Z := 5.
Definition Variable_ : Z := 6.
Definition Class_ : Z := 7.
Definition Interface : Z := 8.
Definition Module_ : Z := 9.
Definition Property : Z := 10.
Definition Unit : Z := 11.
Definition Value : Z := 12.
Definition Enum : Z := 13.
Definition Keyword : Z := 14.
Definition Snippet : Z := 15.
Definition Color : Z := 16.
Definition File : Z := 17.
Definition Reference : Z := 18.
Definition Folder : Z := 19.
Definition EnumMember : Z := 20.
Definition Constant : Z := 21.
Definition Struct : Z := 22.
Definition Event : Z := 23.
Definition Operator : Z := 24.
Definition TypeParameter : Z := 25.
End CompletionItemKind.

Record CompletionItem : Type := mkCompletionItem {
  label : Js.String;
  kind : option Z;
  detail : option Js.String;
  documentation : option Js.String
}.

Record CompletionList : Type := mkCompletionList {
  isIncomplete : bool;
  items : list CompletionItem
}.

Record CompletionEntry : Type := mkCompletionEntry {
  entry_name : Js.String;
  entry_kindModifiers : Js.String;
  entry_kind : ScriptElementKind.t;
  entry_sortText : Js.String
}.

Record CompletionInfo : Type := mkCompletionInfo {
  isGlobalCompletion : bool;
  isMemberCompletion : bool;
  isNewIdentifierLocation : bool;
  entries : list CompletionEntry
}.

Record CompletionEntryDetails : Type := mkCompletionEntryDetails {
  details_name : Js.String;
  details_kind : ScriptElementKind.t;
  details_kindModifiers : Js.String;
  details_tags : list Js.String;
  details_displayParts : list SymbolDisplayPart;
  details_documentation : list SymbolDisplayPart
}.

(** The fields of the decorator's [TemplateContext] that the bridge reads. *)
Record TemplateContext : Type := mkTemplateContext {
  fileName : Js.String;
  text : Js.String;
  toPosition : Z -> LineAndCharacter;
  toOffset : LineAndCharacter -> Z
}.

(** ** The completions cache *)

Definition arePositionsEqual (left right : LineAndCharacter) : bool :=
  (line left =? line right) && (character left =? character right).

Record CompletionsCache : Type := mkCompletionsCache {
  _cachedCompletionsFile : option Js.String;
  _cachedCompletionsPosition : option LineAndCharacter;
  _cachedCompletionsContent : option Js.String;
  _completions : option (Js.Object CompletionList)
}.

(** [new CompletionsCache()]: every field is [undefined]. *)
Definition newCompletionsCache : CompletionsCache :=
  mkCompletionsCache None None None None.

Definition getCached (this : CompletionsCache) (context : TemplateContext)
    (position : LineAndCharacter) : option (Js.Object CompletionList) :=
  match _completions this with
  | Some completions =>
      if Js.str_eqb_undef (fileName context) (_cachedCompletionsFile this)
         && match _cachedCompletionsPosition this with
            | Some cached => arePositionsEqual position cached
            | None => false
            end
         && Js.str_eqb_undef (text context) (_cachedCompletionsContent this)
      then Some completions
      else None
  | None => None
  end.

Definition updateCached (context : TemplateContext)
    (position : LineAndCharacter) (completions : Js.Object CompletionList)
    : CompletionsCache :=
  {| _cachedCompletionsFile := Some (fileName context);
     _cachedCompletionsPosition := Some position;
     _cachedCompletionsContent := Some (text context);
     _completions := Some completions |}.

(** ** Result translators *)

Definition toDisplayParts (text : option Js.String) : list SymbolDisplayPart :=
  match text with
  | Some t =>
      if Js.truthy_str t
      then [ {| part_text := t; part_kind := Js.lit "text" |} ]
      else []
  | None => []
  end.

(** The [switch] of the source, one test per [case] label in its order. *)
Definition translateionCompletionItemKind (kind : Z) : ScriptElementKind.t :=
  if kind =? CompletionItemKind.Method then
    ScriptElementKind.memberFunctionElement
  else if kind =? CompletionItemKind.Function_ then
    ScriptElementKind.functionElement
  else if kind =? CompletionItemKind.Constructor then
    ScriptElementKind.constructorImplementationElement
  else if (kind =? CompletionItemKind.Field)
          || (kind =? CompletionItemKind.Variable_) then
    ScriptElementKind.variableElement
  else if kind =? CompletionItemKind.Class_ then
    ScriptElementKind.classElement
  else if kind =? CompletionItemKind.Interface then
    ScriptElementKind.interfaceElement
  else if kind =? CompletionItemKind.Module_ then
    ScriptElementKind.moduleElement
  else if kind =? CompletionItemKind.Property then
    ScriptElementKind.memberVariableElement
  else if (kind =? CompletionItemKind.Unit)
          || (kind =? CompletionItemKind.Value) then
    ScriptElementKind.constElement
  else if kind =? CompletionItemKind.Enum then
    ScriptElementKind.enumElement
  else if kind =? CompletionItemKind.Keyword then
    ScriptElementKind.keyword
  else if kind =? CompletionItemKind.Color then
    ScriptElementKind.constElement
  else if kind =? CompletionItemKind.Reference then
    ScriptElementKind.alias
  else if kind =? CompletionItemKind.File then
    ScriptElementKind.moduleElement
  else if (kind =? CompletionItemKind.Snippet)
          || (kind =? CompletionItemKind.Text) then
    ScriptElementKind.unknown
  else
    ScriptElementKind.unknown.

(** [item.kind ? translateionCompletionItemKind(typescript, item.kind)
              : typescript.ScriptElementKind.unknown] *)
Definition kindOfItem (item : CompletionItem) : ScriptElementKind.t :=
  match kind item with
  | Some k =>
      if Js.truthy_num k
      then translateionCompletionItemKind k
      else ScriptElementKind.unknown
  | None => ScriptElementKind.unknown
  end.

Definition translateCompetionEntry (item : CompletionItem) : CompletionEntry :=
  {| entry_name := label item;
     entry_kindModifiers := Js.lit "";
     entry_kind := kindOfItem item;
     entry_sortText := Js.lit "0" |}.

Definition translateCompletionItemsToCompletionEntryDetails
    (item : CompletionItem) : CompletionEntryDetails :=
  {| details_name := label item;
     details_kindModifiers := Js.lit "declare";
     details_kind := kindOfItem item;
     details_displayParts := toDisplayParts (detail item);
     details_documentation := toDisplayParts (documentation item);
     details_tags := [] |}.

Definition translateCompletionItemsToCompletionInfo
    (completions : CompletionList) : CompletionInfo :=
  {| isGlobalCompletion := false;
     isMemberCompletion := false;
     isNewIdentifierLocation := false;
     entries := List.map translateCompetionEntry (items completions) |}.

(** ** The two regular expressions of the formatter

    [String.prototype.match] with a regular expression that has no [g]
    flag is [RegExp.prototype.exec]: the leftmost start index at which
    the backtracking matcher succeeds, greedy quantifiers trying the
    longest repetition first.  Only the constructs of [/^\s*\n/] and
    [/\n\s*$/] are modelled: the two assertions, one character of a
    class, and the greedy star of a class. *)

Module RegExp.

Inductive node : Type :=
| Bol                       (* ^ without the m flag: start of input *)
| Eol                       (* $ without the m flag: end of input *)
| Class (p : N -> bool)     (* one code unit of a class *)
| Star (p : N -> bool).     (* greedy repetition of a class *)

Definition t := list node.

(** Greedy star: one more repetition first, the rest of the pattern
    ([k]) where that fails.  The result is the number of code units
    consumed from here on. *)
Fixpoint star (p : N -> bool) (k : bool -> Js.String -> option nat)
    (at_start : bool) (s : Js.String) : option nat :=
  match s with
  | c :: s' =>
      if p c then
        match star p k false s' with
        | Some n => Some (S n)
        | None => k at_start s
        end
      else k at_start s
  | [] => k at_start s
  end.

Fixpoint match_here (r : t) (at_start : bool) (s : Js.String)
    : option nat :=
  match r with
  | [] => Some 0%nat
  | Bol :: r' => if at_start then match_here r' at_start s else None
  | Eol :: r' =>
      match s with
      | [] => match_here r' at_start s
      | _ :: _ => None
      end
  | Class p :: r' =>
      match s with
      | c :: s' =>
          if p c then
            match match_here r' false s' with
            | Some n => Some (S n)
            | None => None
            end
          else None
      | [] => None
      end
  | Star p :: r' => star p (match_here r') at_start s
  end.

(** The match as (index, length of [match[0]]). *)
Fixpoint exec_from (r : t) (at_start : bool) (s : Js.String)
    : option (nat * nat) :=
  match match_here r at_start s with
  | Some n => Some (0%nat, n)
  | None =>
      match s with
      | [] => None
      | _ :: s' =>
          match exec_from r false s' with
          | Some (i, n) => Some (S i, n)
          | None => None
          end
      end
  end.

Definition exec (r : t) (s : Js.String) : option (nat * nat) :=
  exec_from r true s.

(** [\n] *)
Definition newline : N := 10%N.

Definition is_newline (c : N) : bool := N.eqb c newline.

(** [\s]: the WhiteSpace and LineTerminator code units of ECMAScript. *)
Definition is_space (c : N) : bool :=
  ((9 <=? c) && (c <=? 13))%N
  || N.eqb c 32 || N.eqb c 160 || N.eqb c 5760
  || ((8192 <=? c) && (c <=? 8202))%N
  || N.eqb c 8232 || N.eqb c 8233 || N.eqb c 8239 || N.eqb c 8287
  || N.eqb c 12288 || N.eqb c 65279.

(** [/^\s*\n/] *)
Definition leading_re : t := [Bol; Star is_space; Class is_newline].

(** [/\n\s*$/] *)
Definition trailing_re : t := [Class is_newline; Star is_space; Eol].

End RegExp.

(** [s.split(/n/g)]: the pieces of [s] between the occurrences of the
    letter n. *)
Fixpoint split_n (s : Js.String) : list Js.String :=
  match s with
  | [] => [[]]
  | c :: s' =>
      if N.eqb c 110 then [] :: split_n s'
      else
        match split_n s' with
        | piece :: pieces => (c :: piece) :: pieces
        | [] => [[c]]
        end
  end.

(** ** The delegated HTML language service *)

Record TextDocument : Type := mkTextDocument {
  uri : Js.String;
  languageId : Js.String;
  version : Z;
  getText : unit -> Js.String;
  positionAt : Z -> Position;
  offsetAt : Position -> Z;
  lineCount : Z
}.

(** [MarkedString]: a string or a [{ language, value }] pair. *)
Inductive MarkedString : Type :=
| MarkedText (s : Js.String)
| MarkedCode (language value : Js.String).

(** [hover.contents]:
    [MarkupContent | MarkedString | MarkedString[]]. *)
Inductive HoverContents : Type :=
| ContentsOne (m : MarkedString)
| ContentsMany (ms : list MarkedString)
| ContentsMarkup (markup_kind value : Js.String).

Record Hover : Type := mkHover {
  hover_contents : HoverContents;
  hover_range : option Range
}.

Record HTMLFormatConfiguration : Type := mkHTMLFormatConfiguration {
  tabSize : option Z;
  insertSpaces : bool;
  wrapLineLength : Z;
  unformatted : Js.String;
  contentUnformatted : Js.String;
  indentInnerHtml : bool;
  preserveNewLines : bool;
  maxPreserveNewLines : option Z;
  indentHandlebars : bool;
  endWithNewline : bool;
  extraLiners : Js.String;
  wrapAttributes : Js.String
}.

Record TextEdit : Type := mkTextEdit {
  edit_range : Range;
  edit_newText : Js.String
}.

Record TextChange : Type := mkTextChange {
  change_span : TextSpan;
  change_newText : Js.String
}.

Record EditorSettings : Type := mkEditorSettings {
  settings_tabSize : option Z;
  convertTabsToSpaces : option bool
}.

Record QuickInfo : Type := mkQuickInfo {
  info_kind : ScriptElementKind.t;
  info_kindModifiers : Js.String;
  info_textSpan : TextSpan;
  info_displayParts : list SymbolDisplayPart;
  info_documentation : list SymbolDisplayPart;
  info_tags : list Js.String
}.

(** One call made to the delegated service, with its arguments. *)
Inductive Call : Type :=
| Call_parseHTMLDocument (doc : TextDocument)
| Call_doComplete (doc : TextDocument) (position : Position)
| Call_doHover (doc : TextDocument) (position : Position)
| Call_format (doc : TextDocument) (range : Range)
    (options : HTMLFormatConfiguration).

Definition is_doComplete (c : Call) : bool :=
  match c with
  | Call_doComplete _ _ => true
  | _ => false
  end.

Definition is_format (c : Call) : bool :=
  match c with
  | Call_format _ _ _ => true
  | _ => false
  end.

(** How often a kind of call occurs in a history. *)
Definition count_calls (which : Call -> bool) (h : list Call) : nat :=
  List.length (List.filter which h).

(** The [format.enabled] flag of the plugin configuration. *)
Record TsHtmlPluginConfiguration : Type := mkConfiguration {
  format_enabled : bool
}.

(** The fields of a bridge instance.  The lazily created service handle
    is represented by the calls made through it so far, latest first;
    [None] is the handle not created yet. *)
Record HtmlTemplateLanguageService : Type := mkBridge {
  configuration : TsHtmlPluginConfiguration;
  _htmlLanguageService : option (list Call);
  _completionsCache : CompletionsCache
}.

(** [new HtmlTemplateLanguageService(typescript, configuration, logger)] *)
Definition newBridge (configuration : TsHtmlPluginConfiguration)
    : HtmlTemplateLanguageService :=
  mkBridge configuration None newCompletionsCache.

(** The calls made to the delegated service by this instance so far. *)
Definition history (this : HtmlTemplateLanguageService) : list Call :=
  match _htmlLanguageService this with
  | Some h => h
  | None => []
  end.

(** Methods read and update the fields of [this]. *)
Definition M (A : Type) : Type :=
  HtmlTemplateLanguageService -> A * HtmlTemplateLanguageService.

Definition ret {A} (a : A) : M A := fun this => (a, this).

Definition bind {A B} (m : M A) (k : A -> M B) : M B :=
  fun this => let (a, this') := m this in k a this'.

Notation "x <- m ;; k" := (bind m (fun x => k))
  (at level 61, m at next level, right associativity).

Definition result {A} (p : A * HtmlTemplateLanguageService) : A := fst p.
Definition after {A} (p : A * HtmlTemplateLanguageService)
    : HtmlTemplateLanguageService := snd p.

Definition createVirtualDocument (context : TemplateContext) : TextDocument :=
  let contents := text context in
  {| uri := Js.lit "untitled://embedded.html";
     languageId := Js.lit "html";
     version := 1;
     getText := fun _ => contents;
     positionAt := fun offset => toPosition context offset;
     offsetAt := fun p => toOffset context p;
     lineCount := Z.of_nat (List.length (split_n contents)) + 1 |}.

Definition toVsRange (context : TemplateContext) (start end_ : Z) : Range :=
  {| range_start := toPosition context start;
     range_end := toPosition context end_ |}.

Definition toTsSpan (context : TemplateContext) (range : Range) : TextSpan :=
  let editStart := toOffset context (range_start range) in
  let editEnd := toOffset context (range_end range) in
  {| span_start := editStart;
     span_length := editEnd - editStart |}.

(** [convertPart] of [translateHover], returning what it pushes. *)
Definition convertMarked (m : MarkedString) : SymbolDisplayPart :=
  match m with
  | MarkedText s => {| part_kind := Js.lit "unknown"; part_text := s |}
  | MarkedCode _ value =>
      {| part_kind := Js.lit "unknown"; part_text := value |}
  end.

Definition convertPart (hoverContents : HoverContents)
    : list SymbolDisplayPart :=
  match hoverContents with
  | ContentsOne m => [convertMarked m]
  | ContentsMany ms => List.map convertMarked ms
  | ContentsMarkup _ value =>
      [ {| part_kind := Js.lit "unknown"; part_text := value |} ]
  end.

Definition translateHover (hover : Hover) (position : LineAndCharacter)
    (context : TemplateContext) : QuickInfo :=
  let contents := convertPart (hover_contents hover) in
  let start :=
    toOffset context
      match hover_range hover with
      | Some range => range_start range
      | None => position
      end in
  {| info_kind := ScriptElementKind.unknown;
     info_kindModifiers := Js.lit "";
     info_textSpan :=
       {| span_start := start;
          span_length :=
            match hover_range hover with
            | Some range => toOffset context (range_end range) - start
            | None => 1
            end |};
     info_displayParts := [];
     info_documentation := contents;
     info_tags := [] |}.

(** The fixed style configuration handed to the delegated formatter. *)
Definition formatOptions (settings : EditorSettings)
    : HTMLFormatConfiguration :=
  {| tabSize := settings_tabSize settings;
     insertSpaces :=
       match convertTabsToSpaces settings with
       | Some b => b
       | None => false
       end;
     wrapLineLength := 120;
     unformatted := Js.lit "";
     contentUnformatted := Js.lit "pre,code,textarea";
     indentInnerHtml := false;
     preserveNewLines := true;
     maxPreserveNewLines := None;
     indentHandlebars := false;
     endWithNewline := false;
     extraLiners := Js.lit "head, body, /html";
     wrapAttributes := Js.lit "auto" |}.

Section Bridge.

(** The delegated service.  Every operation is given the calls made
    before it, so it may answer the same question differently each
    time. *)
Variable HTMLDocument : Type.
Variable parseHTMLDocument : list Call -> TextDocument -> HTMLDocument.
Variable doComplete :
  list Call -> TextDocument -> Position -> HTMLDocument ->
  Js.Object CompletionList.
Variable doHover :
  list Call -> TextDocument -> Position -> HTMLDocument -> option Hover.
Variable format :
  list Call -> TextDocument -> Range -> HTMLFormatConfiguration ->
  list TextEdit.

(** [this.htmlLanguageService.op(...)]: the getter creates the handle
    when there is none, the call is answered and recorded. *)
Definition invoke {A} (answer : list Call -> A) (c : Call) : M A :=
  fun this =>
    (answer (history this),
     {| configuration := configuration this;
        _htmlLanguageService := Some (c :: history this);
        _completionsCache := _completionsCache this |}).

Definition setCompletionsCache (cache : CompletionsCache) : M unit :=
  fun this =>
    (tt,
     {| configuration := configuration this;
        _htmlLanguageService := _htmlLanguageService this;
        _completionsCache := cache |}).

Definition getCompletionItems (context : TemplateContext)
    (position : LineAndCharacter) : M (Js.Object CompletionList) :=
  fun this =>
    match getCached (_completionsCache this) context position with
    | Some cached => ret cached this
    | None =>
        (let doc := createVirtualDocument context in
         htmlDoc <- invoke (fun h => parseHTMLDocument h doc)
                      (Call_parseHTMLDocument doc) ;;
         completions <- invoke (fun h => doComplete h doc position htmlDoc)
                          (Call_doComplete doc position) ;;
         _ <- setCompletionsCache
                (updateCached context position completions) ;;
         invoke (fun h => doComplete h doc position htmlDoc)
           (Call_doComplete doc position)) this
    end.

Definition getCompletionsAtPosition (context : TemplateContext)
    (position : LineAndCharacter) : M CompletionInfo :=
  items <- getCompletionItems context position ;;
  ret (translateCompletionItemsToCompletionInfo (Js.contents items)).

Definition getCompletionEntryDetails (context : TemplateContext)
    (position : LineAndCharacter) (name : Js.String)
    : M CompletionEntryDetails :=
  completions <- getCompletionItems context position ;;
  match List.find (fun x => Js.str_eqb (label x) name)
          (items (Js.contents completions)) with
  | None =>
      ret {| details_name := name;
             details_kind := ScriptElementKind.unknown;
             details_kindModifiers := Js.lit "";
             details_tags := [];
             details_displayParts := toDisplayParts (Some name);
             details_documentation := [] |}
  | Some item => ret (translateCompletionItemsToCompletionEntryDetails item)
  end.

Definition getQuickInfoAtPosition (context : TemplateContext)
    (position : LineAndCharacter) : M (option QuickInfo) :=
  let doc := createVirtualDocument context in
  htmlDoc <- invoke (fun h => parseHTMLDocument h doc)
               (Call_parseHTMLDocument doc) ;;
  hover <- invoke (fun h => doHover h doc position htmlDoc)
             (Call_doHover doc position) ;;
  match hover with
  | Some hover => ret (Some (translateHover hover position context))
  | None => ret None
  end.

(** [start] and [end] after the two boundary adjustments. *)
Definition adjustedStart (context : TemplateContext) (start : Z) : Z :=
  match RegExp.exec RegExp.leading_re (text context) with
  | Some (_, n) => start + Z.of_nat n
  | None => start
  end.

Definition adjustedEnd (context : TemplateContext) (end_ : Z) : Z :=
  match RegExp.exec RegExp.trailing_re (text context) with
  | Some (_, n) => end_ - Z.of_nat n
  | None => end_
  end.

Definition getFormattingEditsForRange (context : TemplateContext)
    (start end_ : Z) (settings : EditorSettings) : M (list TextChange) :=
  fun this =>
    if negb (format_enabled (configuration this)) then ret [] this
    else
      (let doc := createVirtualDocument context in
       htmlDoc <- invoke (fun h => parseHTMLDocument h doc)
                    (Call_parseHTMLDocument doc) ;;
       let start := adjustedStart context start in
       let end_ := adjustedEnd context end_ in
       if end_ <=? start then ret []
       else
         let range := toVsRange context start end_ in
         edits <- invoke
                    (fun h => format h doc range (formatOptions settings))
                    (Call_format doc range (formatOptions settings)) ;;
         ret (List.map
                (fun vsedit =>
                   {| change_span := toTsSpan context (edit_range vsedit);
                      change_newText := edit_newText vsedit |})
                edits)) this.

End Bridge.

(** ** Predicates of the specification and inputs for the examples *)

(** The three key fields of a request agree with the stored ones. *)
Definition key_matches (cache : CompletionsCache) (context : TemplateContext)
    (position : LineAndCharacter) : Prop :=
  _cachedCompletionsFile cache = Some (fileName context)
  /\ (exists cached,
        _cachedCompletionsPosition cache = Some cached
        /\ line position = line cached
        /\ character position = character cached)
  /\ _cachedCompletionsContent cache = Some (text context).

Definition example_context : TemplateContext :=
  {| fileName := Js.lit "a.ts";
     text := Js.lit "<di";
     toPosition := fun offset => mkPosition 0 offset;
     toOffset := fun p => character p |}.

Definition example_list : Js.Object CompletionList :=
  Js.mkObject 0 (mkCompletionList false
    [ mkCompletionItem (Js.lit "div") (Some CompletionItemKind.Property)
        None None ]).

(** The table of the specification, as pairs of a completion item kind
    and the element kind it is mapped to. *)
Definition spec_kind_table : list (Z * ScriptElementKind.t) :=
  [ (CompletionItemKind.Method, ScriptElementKind.memberFunctionElement);
    (CompletionItemKind.Function_, ScriptElementKind.functionElement);
    (CompletionItemKind.Constructor,
      ScriptElementKind.constructorImplementationElement);
    (CompletionItemKind.Field, ScriptElementKind.variableElement);
    (CompletionItemKind.Variable_, ScriptElementKind.variableElement);
    (CompletionItemKind.Class_, ScriptElementKind.classElement);
    (CompletionItemKind.Interface, ScriptElementKind.interfaceElement);
    (CompletionItemKind.Module_, ScriptElementKind.moduleElement);
    (CompletionItemKind.Property, ScriptElementKind.memberVariableElement);
    (CompletionItemKind.Unit, ScriptElementKind.constElement);
    (CompletionItemKind.Value, ScriptElementKind.constElement);
    (CompletionItemKind.Enum, ScriptElementKind.enumElement);
    (CompletionItemKind.Keyword, ScriptElementKind.keyword);
    (CompletionItemKind.Color, ScriptElementKind.constElement);
    (CompletionItemKind.Reference, ScriptElementKind.alias);
    (CompletionItemKind.File, ScriptElementKind.moduleElement) ].

(** Looking a kind up in a table, ["unknown"] when it has no entry. *)
Fixpoint lookup_kind (table : list (Z * ScriptElementKind.t)) (k : Z)
    : ScriptElementKind.t :=
  match table with
  | [] => ScriptElementKind.unknown
  | (k', v) :: rest => if k =? k' then v else lookup_kind rest k
  end.

(** ** A delegated service for the examples

    Like the HTML language service it stands for, it allocates a new list
    for every [doComplete] call; the identity of the list is the number of
    [doComplete] calls made before. *)

Definition example_parseHTMLDocument (h : list Call) (doc : TextDocument)
    : unit := tt.

Definition example_doComplete (h : list Call) (doc : TextDocument)
    (position : Position) (htmlDoc : unit) : Js.Object CompletionList :=
  Js.mkObject (count_calls is_doComplete h)
    (mkCompletionList false
       [ mkCompletionItem (Js.lit "div") (Some CompletionItemKind.Property)
           None None ]).

Definition example_doHover (h : list Call) (doc : TextDocument)
    (position : Position) (htmlDoc : unit) : option Hover :=
  Some (mkHover (ContentsOne (MarkedText (Js.lit "The div element"))) None).

Definition example_format (h : list Call) (doc : TextDocument)
    (range : Range) (options : HTMLFormatConfiguration) : list TextEdit :=
  [].

Definition example_bridge : HtmlTemplateLanguageService :=
  newBridge (mkConfiguration true).

(** A prefix of [s] of length [n] that is white space ending in a
    newline. *)
Definition leading_run (s : Js.String) (n : nat) : Prop :=
  exists w rest,
    s = w ++ RegExp.newline :: rest
    /\ Forall (fun c => RegExp.is_space c = true) w
    /\ n = S (List.length w).

(** A suffix of [s] of length [n] that is a newline followed by white
    space. *)
Definition trailing_run (s : Js.String) (n : nat) : Prop :=
  exists before w,
    s = before ++ RegExp.newline :: w
    /\ Forall (fun c => RegExp.is_space c = true) w
    /\ n = S (List.length w).

Definition longest (P : nat -> Prop) (n : nat) : Prop :=
  P n /\ forall m, P m -> (m <= n)%nat.

(** The template text of the specification's example, a newline followed
    by [<p>x</p>]. *)
Definition example_paragraph : TemplateContext :=
  {| fileName := Js.lit "a.ts";
     text := RegExp.newline :: Js.lit "<p>x</p>";
     toPosition := fun offset => mkPosition 0 offset;
     toOffset := fun p => character p |}.

(** A template text that is one newline. *)
Definition example_blank : TemplateContext :=
  {| fileName := Js.lit "a.ts";
     text := [RegExp.newline];
     toPosition := fun offset => mkPosition 0 offset;
     toOffset := fun p => character p |}.

(** A formatter that replaces the range it is given by one paragraph. *)
Definition example_reformat (h : list Call) (doc : TextDocument)
    (range : Range) (options : HTMLFormatConfiguration) : list TextEdit :=
  [ mkTextEdit range (Js.lit "<p>x</p>") ].

(** A template text of white space only, with two newlines. *)
Definition example_blank_lines : TemplateContext :=
  {| fileName := Js.lit "a.ts";
     text := [RegExp.newline; 32%N; RegExp.newline; 32%N];
     toPosition := fun offset => mkPosition 0 offset;
     toOffset := fun p => character p |}.

(** * Properties *)

Unset Implicit Arguments.

(** ** Strings and the cache key *)

Lemma str_eqb_eq (a b : Js.String) : Js.str_eqb a b = true <-> a = b.
Proof.
  revert b; induction a as [|x a IH]; intros [|y b]; simpl;
    try (split; [discriminate | congruence]); try tauto.
  rewrite andb_true_iff, N.eqb_eq, IH.
  split; [intros [-> ->]; reflexivity | intros E; now inversion E].
Qed.

Lemma str_eqb_refl (a : Js.String) : Js.str_eqb a a = true.
Proof. now apply str_eqb_eq. Qed.

Lemma str_eqb_undef_eq (a : Js.String) (b : option Js.String) :
  Js.str_eqb_undef a b = true <-> b = Some a.
Proof.
  destruct b as [b|]; simpl; [|split; discriminate].
  rewrite str_eqb_eq. split; [now intros -> | now intros [= ->]].
Qed.

Lemma arePositionsEqual_eq (p q : LineAndCharacter) :
  arePositionsEqual p q = true <-> line p = line q /\ character p = character q.
Proof.
  unfold arePositionsEqual.
  now rewrite andb_true_iff, !Z.eqb_eq.
Qed.

Lemma arePositionsEqual_refl (p : LineAndCharacter) :
  arePositionsEqual p p = true.
Proof. now apply arePositionsEqual_eq. Qed.

Lemma getCached_Some (cache : CompletionsCache) (context : TemplateContext)
    (position : LineAndCharacter) (r : Js.Object CompletionList) :
  getCached cache context position = Some r <->
  _completions cache = Some r /\ key_matches cache context position.
Proof.
  unfold getCached, key_matches.
  destruct (_completions cache) as [c|]; [|split; [discriminate | now intros [? _]]].
  destruct (Js.str_eqb_undef (fileName context) _) eqn:Ef; simpl.
  2:{ split; [discriminate|]. intros (_ & Hf & _).
      apply str_eqb_undef_eq in Hf. congruence. }
  apply str_eqb_undef_eq in Ef.
  destruct (_cachedCompletionsPosition cache) as [q|]; simpl.
  2:{ split; [discriminate|]. intros (_ & _ & (q & Hq & _) & _). discriminate. }
  destruct (arePositionsEqual position q) eqn:Ep; simpl.
  2:{ split; [discriminate|]. intros (_ & _ & (q' & [= <-] & Hl & Hc) & _).
      assert (arePositionsEqual position q = true)
        by now apply arePositionsEqual_eq.
      congruence. }
  apply arePositionsEqual_eq in Ep.
  destruct (Js.str_eqb_undef (text context) _) eqn:Et.
  - apply str_eqb_undef_eq in Et.
    split; [intros [= <-] | intros [[= <-] _]; reflexivity].
    repeat split; try assumption. exists q. tauto.
  - split; [discriminate|]. intros (_ & _ & _ & Ht).
    apply str_eqb_undef_eq in Ht. congruence.
Qed.

Lemma getCached_None (cache : CompletionsCache) (context : TemplateContext)
    (position : LineAndCharacter) :
  ~ key_matches cache context position ->
  getCached cache context position = None.
Proof.
  intros Hk. destruct (getCached cache context position) as [r|] eqn:E.
  - apply getCached_Some in E. tauto.
  - reflexivity.
Qed.

(** C2.  [getCached] returns a list exactly when that list is the stored
    one and the request's file name, position (line and character) and
    text all equal the stored ones; if one of the three comparisons fails
    it returns nothing. *)
Theorem getCached_hit_only_on_equal_key
    (cache : CompletionsCache) (context : TemplateContext)
    (position : LineAndCharacter) :
  (forall r,
     getCached cache context position = Some r <->
     _completions cache = Some r /\ key_matches cache context position)
  /\ (~ key_matches cache context position ->
      getCached cache context position = None).
Proof.
  split.
  - intros r. apply getCached_Some.
  - apply getCached_None.
Qed.

Lemma getCached_hit_only_on_equal_key_witness :
  getCached
    (updateCached example_context (mkPosition 0 3) example_list)
    example_context (mkPosition 0 2) = None.
Proof.
  apply (proj2 (getCached_hit_only_on_equal_key
                  (updateCached example_context (mkPosition 0 3) example_list)
                  example_context (mkPosition 0 2))).
  intros (_ & (cached & Hc & _ & Hch) & _).
  simpl in Hc. injection Hc as <-. simpl in Hch. discriminate.
Defined.

(** ** Result translators *)

(** C9.  [toDisplayParts] is defined on every input: a non-empty string
    gives one part carrying that string with kind ["text"], the empty
    string and an absent string give no part. *)
Theorem toDisplayParts_total :
  (forall t : Js.String,
     t <> [] ->
     toDisplayParts (Some t)
     = [ {| part_text := t; part_kind := Js.lit "text" |} ])
  /\ toDisplayParts (Some []) = []
  /\ toDisplayParts None = [].
Proof.
  repeat split.
  intros [|c t] Ht; [congruence | reflexivity].
Qed.

Lemma toDisplayParts_total_witness :
  toDisplayParts (Some (Js.lit "div"))
  = [ {| part_text := Js.lit "div"; part_kind := Js.lit "text" |} ].
Proof.
  apply (proj1 toDisplayParts_total (Js.lit "div")). discriminate.
Defined.

Lemma lookup_kind_not_in (table : list (Z * ScriptElementKind.t)) (k : Z) :
  ~ In k (List.map fst table) ->
  lookup_kind table k = ScriptElementKind.unknown.
Proof.
  induction table as [|[k' v] rest IH]; simpl; intros Hn; [reflexivity|].
  destruct (Z.eqb_spec k k') as [->|_]; [tauto|]. apply IH. tauto.
Qed.

Lemma translateionCompletionItemKind_lookup (k : Z) :
  translateionCompletionItemKind k = lookup_kind spec_kind_table k.
Proof.
  unfold translateionCompletionItemKind, spec_kind_table, lookup_kind.
  repeat match goal with
         | |- context [?a =? ?b] =>
             destruct (Z.eqb_spec a b); simpl; try reflexivity
         end.
Qed.

(** C3.  The kind mapping is a function on every number: it agrees with
    the table of the specification on each listed kind, and every kind
    with no entry in the table, snippet and plain text among them, is
    mapped to ["unknown"]. *)
Theorem kind_mapping_is_the_table (k : Z) :
  translateionCompletionItemKind k = lookup_kind spec_kind_table k
  /\ (forall v, In (k, v) spec_kind_table ->
        translateionCompletionItemKind k = v)
  /\ (~ In k (List.map fst spec_kind_table) ->
        translateionCompletionItemKind k = ScriptElementKind.unknown)
  /\ ~ In CompletionItemKind.Snippet (List.map fst spec_kind_table)
  /\ ~ In CompletionItemKind.Text (List.map fst spec_kind_table).
Proof.
  split; [apply translateionCompletionItemKind_lookup|].
  split; [|split; [|split]].
  - intros v Hin. simpl in Hin.
    repeat (destruct Hin as [[= <- <-]|Hin]; [reflexivity|]).
    contradiction.
  - intros Hn. rewrite translateionCompletionItemKind_lookup.
    now apply lookup_kind_not_in.
  - simpl. unfold CompletionItemKind.Snippet. intuition discriminate.
  - simpl. unfold CompletionItemKind.Text. intuition discriminate.
Qed.

Lemma kind_mapping_is_the_table_witness :
  translateionCompletionItemKind CompletionItemKind.Snippet
  = ScriptElementKind.unknown
  /\ translateionCompletionItemKind CompletionItemKind.Color
     = ScriptElementKind.constElement.
Proof.
  split.
  - apply (proj1 (proj2 (proj2
             (kind_mapping_is_the_table CompletionItemKind.Snippet)))).
    apply (proj1 (proj2 (proj2 (proj2
             (kind_mapping_is_the_table CompletionItemKind.Snippet))))).
  - apply (proj1 (proj2 (kind_mapping_is_the_table CompletionItemKind.Color))).
    simpl. do 13 right. left. reflexivity.
Defined.

(** C10.  An item without a [kind] gets the ["unknown"] element kind from
    both translations, whatever its other fields are. *)
Theorem absent_kind_is_unknown (item : CompletionItem) :
  kind item = None ->
  entry_kind (translateCompetionEntry item) = ScriptElementKind.unknown
  /\ details_kind (translateCompletionItemsToCompletionEntryDetails item)
     = ScriptElementKind.unknown.
Proof.
  intros Hk. unfold translateCompetionEntry,
    translateCompletionItemsToCompletionEntryDetails, kindOfItem; simpl.
  rewrite Hk. split; reflexivity.
Qed.

Lemma absent_kind_is_unknown_witness :
  entry_kind
    (translateCompetionEntry (mkCompletionItem (Js.lit "div") None None None))
  = ScriptElementKind.unknown
  /\ details_kind
       (translateCompletionItemsToCompletionEntryDetails
          (mkCompletionItem (Js.lit "div") None None None))
     = ScriptElementKind.unknown.
Proof.
  apply (absent_kind_is_unknown
           (mkCompletionItem (Js.lit "div") None None None)).
  reflexivity.
Defined.

(** ** The facade *)

Section BridgeProperties.

Variable HTMLDocument : Type.
Variable parseHTMLDocument : list Call -> TextDocument -> HTMLDocument.
Variable doComplete :
  list Call -> TextDocument -> Position -> HTMLDocument ->
  Js.Object CompletionList.
Variable doHover :
  list Call -> TextDocument -> Position -> HTMLDocument -> option Hover.

Let completionItems := getCompletionItems parseHTMLDocument doComplete.
Let completionEntryDetails :=
  getCompletionEntryDetails parseHTMLDocument doComplete.
Let quickInfoAtPosition := getQuickInfoAtPosition parseHTMLDocument doHover.

(** *** Completion items and the cache *)

Lemma getCompletionItems_hit (this : HtmlTemplateLanguageService)
    (context : TemplateContext) (position : LineAndCharacter)
    (cached : Js.Object CompletionList) :
  getCached (_completionsCache this) context position = Some cached ->
  completionItems context position this = (cached, this).
Proof.
  intros H. unfold completionItems, getCompletionItems. now rewrite H.
Qed.

(** On a miss the delegated [doComplete] is asked twice: the first
    answer is stored, the second one is returned. *)
Lemma getCompletionItems_miss (this : HtmlTemplateLanguageService)
    (context : TemplateContext) (position : LineAndCharacter) :
  getCached (_completionsCache this) context position = None ->
  let doc := createVirtualDocument context in
  let h0 := history this in
  let h1 := Call_parseHTMLDocument doc :: h0 in
  let h2 := Call_doComplete doc position :: h1 in
  let htmlDoc := parseHTMLDocument h0 doc in
  completionItems context position this
  = (doComplete h2 doc position htmlDoc,
     {| configuration := configuration this;
        _htmlLanguageService := Some (Call_doComplete doc position :: h2);
        _completionsCache :=
          updateCached context position
            (doComplete h1 doc position htmlDoc) |}).
Proof.
  intros H. unfold completionItems, getCompletionItems. now rewrite H.
Qed.

Lemma getCached_updateCached (context : TemplateContext)
    (position : LineAndCharacter) (completions : Js.Object CompletionList) :
  getCached (updateCached context position completions) context position
  = Some completions.
Proof.
  apply getCached_Some. split; [reflexivity|].
  unfold key_matches; simpl. repeat split. now exists position.
Qed.

(** After any request, the cache answers the same request. *)
Lemma getCompletionItems_caches (this : HtmlTemplateLanguageService)
    (context : TemplateContext) (position : LineAndCharacter) :
  exists cached,
    getCached
      (_completionsCache (after (completionItems context position this)))
      context position = Some cached.
Proof.
  destruct (getCached (_completionsCache this) context position)
    as [c|] eqn:E.
  - exists c. now rewrite (getCompletionItems_hit _ _ _ _ E).
  - rewrite (getCompletionItems_miss _ _ _ E). simpl.
    eexists. apply getCached_updateCached.
Qed.

(** The second of two identical requests asks the delegated service
    nothing and leaves the instance as it was. *)
Lemma getCompletionItems_repeat_is_silent
    (this : HtmlTemplateLanguageService)
    (context : TemplateContext) (position : LineAndCharacter) :
  let this1 := after (completionItems context position this) in
  after (completionItems context position this1) = this1.
Proof.
  intros this1.
  destruct (getCompletionItems_caches this context position) as [c Hc].
  fold this1 in Hc. now rewrite (getCompletionItems_hit _ _ _ _ Hc).
Qed.

(** A request whose key differs from the stored one asks the delegated
    service again. *)
Lemma getCompletionItems_key_change_recomputes
    (this : HtmlTemplateLanguageService)
    (context : TemplateContext) (position : LineAndCharacter) :
  ~ key_matches (_completionsCache this) context position ->
  count_calls is_doComplete
    (history (after (completionItems context position this)))
  = (2 + count_calls is_doComplete (history this))%nat.
Proof.
  intros Hk.
  rewrite getCompletionItems_miss
    by now apply getCached_None.
  reflexivity.
Qed.

(** When the delegated [doComplete] answers alike whatever was asked
    before, two identical requests in a row return equal values. *)
Lemma getCompletionItems_repeat_equal_if_stateless
    (this : HtmlTemplateLanguageService)
    (context : TemplateContext) (position : LineAndCharacter) :
  (forall h h' doc p d, doComplete h doc p d = doComplete h' doc p d) ->
  let first := completionItems context position this in
  result (completionItems context position (after first)) = result first.
Proof.
  intros Hpure first. subst first.
  destruct (getCached (_completionsCache this) context position)
    as [c|] eqn:E.
  - rewrite (getCompletionItems_hit _ _ _ _ E). simpl.
    now rewrite (getCompletionItems_hit _ _ _ _ E).
  - rewrite (getCompletionItems_miss _ _ _ E). simpl.
    erewrite getCompletionItems_hit
      by (simpl; apply getCached_updateCached).
    simpl. apply Hpure.
Qed.

(** C7.  When no item of the current completion list has the requested
    name as its label, [getCompletionEntryDetails] returns a record with
    that name and the ["unknown"] kind. *)
Theorem details_of_a_missing_name (this : HtmlTemplateLanguageService)
    (context : TemplateContext) (position : LineAndCharacter)
    (name : Js.String) :
  (forall item,
     In item
       (items (Js.contents
                 (result (completionItems context position this)))) ->
     label item <> name) ->
  let details :=
    result (completionEntryDetails context position name this) in
  details_name details = name
  /\ details_kind details = ScriptElementKind.unknown.
Proof.
  intros Hno. unfold completionEntryDetails, getCompletionEntryDetails, bind.
  fold completionItems.
  destruct (completionItems context position this) as [completions this'].
  simpl in Hno.
  destruct (find _ (items (Js.contents completions))) as [item|] eqn:Ef.
  - apply find_some in Ef. destruct Ef as [Hin Heq].
    apply str_eqb_eq in Heq. now apply Hno in Hin.
  - simpl. split; reflexivity.
Qed.

(** *** Hover *)

(** C6.  When the delegated service returns a hover, the quick info is
    present; with a range its span starts at the offset of the range's
    start and is as long as the offset of the range's end minus that
    start, without a range it starts at the offset of the queried
    position and has length 1. *)
Theorem hover_span (this : HtmlTemplateLanguageService)
    (context : TemplateContext) (position : LineAndCharacter)
    (hover : Hover) :
  let doc := createVirtualDocument context in
  doHover (Call_parseHTMLDocument doc :: history this) doc position
    (parseHTMLDocument (history this) doc) = Some hover ->
  exists info,
    result (quickInfoAtPosition context position this) = Some info
    /\ match hover_range hover with
       | Some range =>
           span_start (info_textSpan info)
           = toOffset context (range_start range)
           /\ span_length (info_textSpan info)
              = toOffset context (range_end range)
                - toOffset context (range_start range)
       | None =>
           span_start (info_textSpan info) = toOffset context position
           /\ span_length (info_textSpan info) = 1
       end.
Proof.
  intros doc Hh.
  unfold quickInfoAtPosition, getQuickInfoAtPosition, bind, invoke.
  cbn. fold doc. rewrite Hh. cbn.
  eexists; split; [reflexivity|].
  unfold translateHover; simpl.
  destruct (hover_range hover); split; reflexivity.
Qed.

End BridgeProperties.

Lemma details_of_a_missing_name_witness :
  let details :=
    result (getCompletionEntryDetails example_parseHTMLDocument
              example_doComplete example_context (mkPosition 0 3)
              (Js.lit "span") example_bridge) in
  details_name details = Js.lit "span"
  /\ details_kind details = ScriptElementKind.unknown.
Proof.
  apply (details_of_a_missing_name unit example_parseHTMLDocument
           example_doComplete example_bridge example_context
           (mkPosition 0 3) (Js.lit "span")).
  simpl. intros item [<-|[]]. simpl. discriminate.
Defined.

Lemma hover_span_witness :
  exists info,
    result (getQuickInfoAtPosition example_parseHTMLDocument example_doHover
              example_context (mkPosition 0 2) example_bridge) = Some info
    /\ span_start (info_textSpan info) = 2
    /\ span_length (info_textSpan info) = 1.
Proof.
  apply (hover_span unit example_parseHTMLDocument example_doHover
           example_bridge
           example_context (mkPosition 0 2)
           (mkHover (ContentsOne (MarkedText (Js.lit "The div element")))
              None)).
  reflexivity.
Defined.

(** C1.  Two identical requests in a row on a new instance, for any
    delegated service: the first request asks [doComplete] twice, stores
    the first answer and returns the second one; the second request
    returns the stored first answer and asks nothing.  With a service
    that allocates a new list per call the two requests therefore return
    two different objects. *)
Theorem completions_cache_returns_the_other_answer
    (HTMLDocument : Type)
    (parseHTMLDocument : list Call -> TextDocument -> HTMLDocument)
    (doComplete :
       list Call -> TextDocument -> Position -> HTMLDocument ->
       Js.Object CompletionList) :
  let position := mkPosition 0 3 in
  let doc := createVirtualDocument example_context in
  let htmlDoc := parseHTMLDocument [] doc in
  let first :=
    getCompletionItems parseHTMLDocument doComplete example_context position
      example_bridge in
  let second :=
    getCompletionItems parseHTMLDocument doComplete example_context position
      (after first) in
  count_calls is_doComplete (history (after first)) = 2%nat
  /\ result first
     = doComplete
         [Call_doComplete doc position; Call_parseHTMLDocument doc]
         doc position htmlDoc
  /\ result second
     = doComplete [Call_parseHTMLDocument doc] doc position htmlDoc
  /\ after second = after first
  /\ (let first' :=
        getCompletionItems example_parseHTMLDocument example_doComplete
          example_context position example_bridge in
      let second' :=
        getCompletionItems example_parseHTMLDocument example_doComplete
          example_context position (after first') in
      Js.identity (result first') = 1%nat
      /\ Js.identity (result second') = 0%nat
      /\ Js.ref_eqb (result first') (result second') = false).
Proof.
  repeat split.
Qed.

(** ** The virtual document *)

Lemma split_n_length (s : Js.String) :
  List.length (split_n s) = S (count_occ N.eq_dec s 110%N).
Proof.
  induction s as [|c s IH]; [reflexivity|]. simpl.
  destruct (N.eqb_spec c 110) as [->|Hc].
  - simpl. rewrite IH.
    now destruct (N.eq_dec 110 110).
  - destruct (N.eq_dec c 110) as [E|_]; [contradiction|].
    destruct (split_n s) as [|piece pieces]; simpl in *; [discriminate|].
    exact IH.
Qed.

(** C8.  The [lineCount] of the virtual document is the number of pieces
    the text falls into when split at the letter n, plus one, that is the
    number of letters n plus two, whatever newlines the text has; the
    document's [positionAt] and [offsetAt] are the context's [toPosition]
    and [toOffset], and the range and span translations of the bridge
    give the same results for two contexts that agree on these two
    functions, however their texts and line counts differ. *)
Theorem lineCount_splits_at_the_letter_n (context : TemplateContext) :
  let doc := createVirtualDocument context in
  lineCount doc = Z.of_nat (List.length (split_n (text context))) + 1
  /\ lineCount doc = Z.of_nat (count_occ N.eq_dec (text context) 110%N) + 2
  /\ (forall offset, positionAt doc offset = toPosition context offset)
  /\ (forall p, offsetAt doc p = toOffset context p)
  /\ (forall text' : Js.String,
        let context' :=
          {| fileName := fileName context;
             text := text';
             toPosition := toPosition context;
             toOffset := toOffset context |} in
        (forall start end_,
           toVsRange context' start end_ = toVsRange context start end_)
        /\ (forall range, toTsSpan context' range = toTsSpan context range)
        /\ (forall hover position,
              info_textSpan (translateHover hover position context')
              = info_textSpan (translateHover hover position context))).
Proof.
  simpl. split; [reflexivity|]. split.
  - rewrite split_n_length. lia.
  - repeat split.
Qed.

(** ** The boundary adjustments of the formatter *)

Lemma is_newline_eq (c : N) : RegExp.is_newline c = true <-> c = RegExp.newline.
Proof. apply N.eqb_eq. Qed.

Lemma newline_is_space : RegExp.is_space RegExp.newline = true.
Proof. reflexivity. Qed.

Lemma is_newline_is_space (c : N) :
  RegExp.is_newline c = true -> RegExp.is_space c = true.
Proof. intros H. apply is_newline_eq in H. now subst. Qed.

Lemma leading_run_cons (c : N) (s : Js.String) (m : nat) :
  leading_run (c :: s) m ->
  (c = RegExp.newline /\ m = 1%nat)
  \/ (RegExp.is_space c = true /\ exists m', m = S m' /\ leading_run s m').
Proof.
  intros (w & rest & Hs & Hw & ->).
  destruct w as [|x w]; simpl in Hs; injection Hs as -> ->.
  - now left.
  - right. inversion Hw; subst. split; [assumption|].
    exists (S (List.length w)). split; [reflexivity|].
    now exists w, rest.
Qed.

Lemma leading_run_here (s : Js.String) : leading_run (RegExp.newline :: s) 1.
Proof. now exists [], s. Qed.

Lemma leading_run_later (c : N) (s : Js.String) (n : nat) :
  RegExp.is_space c = true -> leading_run s n -> leading_run (c :: s) (S n).
Proof.
  intros Hc (w & rest & -> & Hw & ->).
  exists (c :: w), rest. repeat split. now constructor.
Qed.

(** What the backtracking matcher computes for [\s*\n] at a position. *)
Lemma star_newline_spec (s : Js.String) (b : bool) :
  match RegExp.star RegExp.is_space
          (RegExp.match_here [RegExp.Class RegExp.is_newline]) b s with
  | Some n => longest (leading_run s) n
  | None => forall n, ~ leading_run s n
  end.
Proof.
  revert b. induction s as [|c s IH]; intros b.
  - simpl. intros n (w & rest & Hs & _). now destruct w.
  - simpl. destruct (RegExp.is_space c) eqn:Hsp.
    + specialize (IH false).
      destruct (RegExp.star _ _ false s) as [n|].
      * destruct IH as [Hrun Hmax]. split.
        -- now apply leading_run_later.
        -- intros m Hm. apply leading_run_cons in Hm.
           destruct Hm as [[_ ->]|[_ (m' & -> & Hm')]]; [lia|].
           apply Hmax in Hm'. lia.
      * destruct (RegExp.is_newline c) eqn:Hnl.
        -- apply is_newline_eq in Hnl. subst c. split.
           ++ apply leading_run_here.
           ++ intros m Hm. apply leading_run_cons in Hm.
              destruct Hm as [[_ ->]|[_ (m' & -> & Hm')]]; [lia|].
              now apply IH in Hm'.
        -- intros m Hm. apply leading_run_cons in Hm.
           destruct Hm as [[-> _]|[_ (m' & -> & Hm')]].
           ++ discriminate.
           ++ now apply IH in Hm'.
    + destruct (RegExp.is_newline c) eqn:Hnl.
      * apply is_newline_is_space in Hnl. congruence.
      * intros m Hm. apply leading_run_cons in Hm.
        destruct Hm as [[-> _]|[Hc _]]; [discriminate | congruence].
Qed.

Lemma exec_from_leading_not_at_start (s : Js.String) :
  RegExp.exec_from RegExp.leading_re false s = None.
Proof.
  unfold RegExp.leading_re.
  induction s as [|c s IH]; [reflexivity|].
  cbn [RegExp.exec_from RegExp.match_here]. now rewrite IH.
Qed.

(** [/^\s*\n/] matches the longest leading run, at index 0, and fails
    when there is none. *)
Lemma exec_leading_spec (s : Js.String) :
  match RegExp.exec RegExp.leading_re s with
  | Some (i, n) => i = 0%nat /\ longest (leading_run s) n
  | None => forall n, ~ leading_run s n
  end.
Proof.
  unfold RegExp.exec.
  pose proof (star_newline_spec s true) as H.
  destruct s as [|c s]; simpl in *.
  - exact H.
  - destruct (RegExp.is_space c).
    + destruct (RegExp.star _ _ false s) as [n|].
      * now split.
      * destruct (RegExp.is_newline c); [now split|].
        now rewrite exec_from_leading_not_at_start.
    + destruct (RegExp.is_newline c); [now split|].
      now rewrite exec_from_leading_not_at_start.
Qed.

Lemma star_eol_spec (s : Js.String) (b : bool) :
  RegExp.star RegExp.is_space (RegExp.match_here [RegExp.Eol]) b s
  = if forallb RegExp.is_space s then Some (List.length s) else None.
Proof.
  revert b. induction s as [|c s IH]; intros b; simpl; [reflexivity|].
  destruct (RegExp.is_space c); simpl; [|reflexivity].
  rewrite IH. now destruct (forallb RegExp.is_space s).
Qed.

Lemma match_here_trailing_spec (s : Js.String) (b : bool) :
  RegExp.match_here RegExp.trailing_re b s
  = match s with
    | c :: s' =>
        if RegExp.is_newline c && forallb RegExp.is_space s'
        then Some (List.length s)
        else None
    | [] => None
    end.
Proof.
  destruct s as [|c s]; simpl; [reflexivity|].
  destruct (RegExp.is_newline c); simpl; [|reflexivity].
  rewrite star_eol_spec. now destruct (forallb RegExp.is_space s).
Qed.

Lemma trailing_run_cons (c : N) (s : Js.String) (m : nat) :
  trailing_run (c :: s) m ->
  (c = RegExp.newline /\ forallb RegExp.is_space s = true
   /\ m = S (List.length s))
  \/ trailing_run s m.
Proof.
  intros (before & w & Hs & Hw & ->).
  destruct before as [|x before]; simpl in Hs; injection Hs as -> ->.
  - left. repeat split. apply forallb_forall.
    rewrite Forall_forall in Hw. exact Hw.
  - right. now exists before, w.
Qed.

Lemma trailing_run_le (s : Js.String) (m : nat) :
  trailing_run s m -> (m <= List.length s)%nat.
Proof.
  intros (before & w & -> & _ & ->). rewrite length_app. simpl. lia.
Qed.

(** [/\n\s*$/] matches the longest trailing run, which ends where the
    text ends, and fails when there is none. *)
Lemma exec_from_trailing_spec (s : Js.String) (b : bool) :
  match RegExp.exec_from RegExp.trailing_re b s with
  | Some (i, n) =>
      (i + n = List.length s)%nat /\ longest (trailing_run s) n
  | None => forall n, ~ trailing_run s n
  end.
Proof.
  revert b. induction s as [|c s IH]; intros b.
  - simpl. intros n (before & w & Hs & _). now destruct before.
  - cbn [RegExp.exec_from]. rewrite match_here_trailing_spec.
    destruct (RegExp.is_newline c && forallb RegExp.is_space s) eqn:Hm.
    + apply andb_true_iff in Hm. destruct Hm as [Hnl Hsp].
      apply is_newline_eq in Hnl. subst c.
      split; [reflexivity|]. split.
      * exists [], s. repeat split.
        apply Forall_forall. now apply forallb_forall.
      * intros m Hrun. now apply trailing_run_le in Hrun.
    + specialize (IH false).
      destruct (RegExp.exec_from RegExp.trailing_re false s) as [[i n]|].
      * destruct IH as [Hlen [Hrun Hmax]]. split; [simpl; lia|]. split.
        -- destruct Hrun as (before & w & -> & Hw & ->).
           now exists (c :: before), w.
        -- intros m Hr. apply trailing_run_cons in Hr.
           destruct Hr as [(-> & Hsp & _)|Hr]; [|now apply Hmax].
           rewrite Hsp in Hm. discriminate.
      * intros m Hr. apply trailing_run_cons in Hr.
        destruct Hr as [(-> & Hsp & _)|Hr]; [|now apply IH in Hr].
        rewrite Hsp in Hm. discriminate.
Qed.

Lemma adjustedStart_spec (context : TemplateContext) (start : Z) :
  (exists n,
     longest (leading_run (text context)) n
     /\ adjustedStart context start = start + Z.of_nat n)
  \/ ((forall n, ~ leading_run (text context) n)
      /\ adjustedStart context start = start).
Proof.
  unfold adjustedStart.
  pose proof (exec_leading_spec (text context)) as H.
  destruct (RegExp.exec RegExp.leading_re (text context)) as [[i n]|].
  - left. exists n. now destruct H.
  - now right.
Qed.

Lemma adjustedEnd_spec (context : TemplateContext) (end_ : Z) :
  (exists n,
     longest (trailing_run (text context)) n
     /\ adjustedEnd context end_ = end_ - Z.of_nat n)
  \/ ((forall n, ~ trailing_run (text context) n)
      /\ adjustedEnd context end_ = end_).
Proof.
  unfold adjustedEnd, RegExp.exec.
  pose proof (exec_from_trailing_spec (text context) true) as H.
  destruct (RegExp.exec_from RegExp.trailing_re true (text context))
    as [[i n]|].
  - left. exists n. now destruct H.
  - now right.
Qed.

Section FormattingProperties.

Variable HTMLDocument : Type.
Variable parseHTMLDocument : list Call -> TextDocument -> HTMLDocument.
Variable format :
  list Call -> TextDocument -> Range -> HTMLFormatConfiguration ->
  list TextEdit.

Let formattingEditsForRange :=
  getFormattingEditsForRange parseHTMLDocument format.

(** C4.  [getFormattingEditsForRange] returns no edit and makes no call
    to the delegated formatter when [format.enabled] is false (it then
    leaves the instance untouched), and also when the adjusted end is
    not after the adjusted start. *)
Theorem formatting_without_edits (this : HtmlTemplateLanguageService)
    (context : TemplateContext) (start end_ : Z)
    (settings : EditorSettings) :
  format_enabled (configuration this) = false
  \/ adjustedEnd context end_ <= adjustedStart context start ->
  let r := formattingEditsForRange context start end_ settings this in
  result r = []
  /\ List.filter is_format (history (after r))
     = List.filter is_format (history this)
  /\ (format_enabled (configuration this) = false -> after r = this).
Proof.
  intros H r. subst r.
  unfold formattingEditsForRange, getFormattingEditsForRange.
  destruct (format_enabled (configuration this)) eqn:En; simpl.
  - destruct H as [H|H]; [discriminate|].
    unfold bind, invoke; cbn.
    apply Z.leb_le in H. rewrite H. cbn.
    repeat split. discriminate.
  - repeat split.
Qed.

(** C5.  The adjusted start is the start plus the length of the longest
    prefix of the template text that is white space ending in a newline
    (the start itself when there is no such prefix), the adjusted end is
    the end minus the length of the longest suffix that is a newline
    followed by white space (the end itself when there is none), and
    when formatting is enabled and the adjusted range is not empty the
    delegated formatter is called, once, with the positions of the
    adjusted start and end.  For the text of a newline followed by
    [<p>x</p>] and start 0 the adjusted start is 1. *)
Theorem formatting_boundary_adjustments
    (this : HtmlTemplateLanguageService)
    (context : TemplateContext) (start end_ : Z)
    (settings : EditorSettings) :
  let start' := adjustedStart context start in
  let end' := adjustedEnd context end_ in
  ((exists n,
      longest (leading_run (text context)) n
      /\ start' = start + Z.of_nat n)
   \/ ((forall n, ~ leading_run (text context) n) /\ start' = start))
  /\ ((exists n,
         longest (trailing_run (text context)) n
         /\ end' = end_ - Z.of_nat n)
      \/ ((forall n, ~ trailing_run (text context) n) /\ end' = end_))
  /\ (format_enabled (configuration this) = true ->
      start' < end' ->
      let doc := createVirtualDocument context in
      let r := formattingEditsForRange context start end_ settings this in
      history (after r)
      = Call_format doc (toVsRange context start' end')
          (formatOptions settings)
        :: Call_parseHTMLDocument doc :: history this)
  /\ (text context = RegExp.newline :: Js.lit "<p>x</p>" ->
      adjustedStart context 0 = 1).
Proof.
  intros start' end'.
  split; [apply adjustedStart_spec|].
  split; [apply adjustedEnd_spec|].
  split.
  - intros En Hlt doc r. subst r.
    unfold formattingEditsForRange, getFormattingEditsForRange.
    rewrite En. unfold bind, invoke; cbn.
    fold start' end'.
    destruct (Z.leb_spec end' start') as [Hle|_]; [lia|].
    reflexivity.
  - intros Ht. unfold adjustedStart. rewrite Ht. reflexivity.
Qed.

End FormattingProperties.

Lemma formatting_without_edits_witness :
  let r :=
    getFormattingEditsForRange example_parseHTMLDocument example_format
      example_blank 0 1 (mkEditorSettings (Some 4) (Some true))
      example_bridge in
  result r = []
  /\ List.filter is_format (history (after r))
     = List.filter is_format (history example_bridge).
Proof.
  intros r.
  destruct (formatting_without_edits unit example_parseHTMLDocument
              example_format example_bridge example_blank 0 1
              (mkEditorSettings (Some 4) (Some true))) as (H1 & H2 & _).
  - right. vm_compute. discriminate.
  - split; [exact H1 | exact H2].
Defined.

Lemma formatting_boundary_adjustments_witness :
  let doc := createVirtualDocument example_paragraph in
  let settings := mkEditorSettings (Some 4) (Some true) in
  history
    (after
       (getFormattingEditsForRange example_parseHTMLDocument example_format
          example_paragraph 0 9 settings example_bridge))
  = [ Call_format doc (mkRange (mkPosition 0 1) (mkPosition 0 9))
        (formatOptions settings);
      Call_parseHTMLDocument doc ].
Proof.
  intros doc settings.
  apply (proj1 (proj2 (proj2
           (formatting_boundary_adjustments unit example_parseHTMLDocument
              example_format example_bridge example_paragraph 0 9
              settings)))).
  - reflexivity.
  - reflexivity.
Defined.

(** ** Further properties of the completion operations *)

Lemma find_first_match {A : Type} (f : A -> bool) (before : list A) (x : A)
    (rest : list A) :
  (forall y, In y before -> f y = false) ->
  f x = true ->
  List.find f (before ++ x :: rest) = Some x.
Proof.
  induction before as [|y before IH]; simpl; intros Hb Hx.
  - now rewrite Hx.
  - rewrite (Hb y (or_introl eq_refl)). apply IH; auto.
Qed.

Lemma find_map_entries (name : Js.String) (l : list CompletionItem) :
  List.find (fun e => Js.str_eqb (entry_name e) name)
    (List.map translateCompetionEntry l)
  = option_map translateCompetionEntry
      (List.find (fun x => Js.str_eqb (label x) name) l).
Proof.
  induction l as [|x l IH]; simpl; [reflexivity|].
  destruct (Js.str_eqb (label x) name); [reflexivity | exact IH].
Qed.

Lemma kindOfItem_lookup (item : CompletionItem) :
  kindOfItem item
  = match kind item with
    | Some k => lookup_kind spec_kind_table k
    | None => ScriptElementKind.unknown
    end.
Proof.
  unfold kindOfItem. destruct (kind item) as [k|]; [|reflexivity].
  unfold Js.truthy_num. destruct (Z.eqb_spec k 0) as [->|_]; simpl.
  - reflexivity.
  - apply translateionCompletionItemKind_lookup.
Qed.

(** X6.  The kind of a translated item is the table entry of its numeric
    kind, also for a numeric kind that JavaScript treats as false: the
    truthiness test in front of the table changes no result. *)
Theorem item_kind_is_the_table_entry (item : CompletionItem) :
  entry_kind (translateCompetionEntry item)
  = match kind item with
    | Some k => lookup_kind spec_kind_table k
    | None => ScriptElementKind.unknown
    end
  /\ details_kind (translateCompletionItemsToCompletionEntryDetails item)
     = entry_kind (translateCompetionEntry item).
Proof.
  split; [apply kindOfItem_lookup | reflexivity].
Qed.

Section CompletionProperties.

Variable HTMLDocument : Type.
Variable parseHTMLDocument : list Call -> TextDocument -> HTMLDocument.
Variable doComplete :
  list Call -> TextDocument -> Position -> HTMLDocument ->
  Js.Object CompletionList.
Variable doHover :
  list Call -> TextDocument -> Position -> HTMLDocument -> option Hover.
Variable format :
  list Call -> TextDocument -> Range -> HTMLFormatConfiguration ->
  list TextEdit.

Let completionItems := getCompletionItems parseHTMLDocument doComplete.
Let completionsAtPosition :=
  getCompletionsAtPosition parseHTMLDocument doComplete.
Let completionEntryDetails :=
  getCompletionEntryDetails parseHTMLDocument doComplete.
Let quickInfoAtPosition := getQuickInfoAtPosition parseHTMLDocument doHover.
Let formattingEditsForRange :=
  getFormattingEditsForRange parseHTMLDocument format.

Lemma key_matches_after_request (this : HtmlTemplateLanguageService)
    (context : TemplateContext) (position : LineAndCharacter) :
  key_matches
    (_completionsCache (after (completionItems context position this)))
    context position.
Proof.
  destruct (getCompletionItems_caches HTMLDocument parseHTMLDocument doComplete this
              context position) as [c Hc].
  now apply getCached_Some in Hc.
Qed.

Lemma getCompletionsAtPosition_unfold (this : HtmlTemplateLanguageService)
    (context : TemplateContext) (position : LineAndCharacter) :
  completionsAtPosition context position this
  = (translateCompletionItemsToCompletionInfo
       (Js.contents (result (completionItems context position this))),
     after (completionItems context position this)).
Proof.
  unfold completionsAtPosition, getCompletionsAtPosition, bind.
  fold completionItems.
  now destruct (completionItems context position this).
Qed.

Lemma getCompletionEntryDetails_after (this : HtmlTemplateLanguageService)
    (context : TemplateContext) (position : LineAndCharacter)
    (name : Js.String) :
  after (completionEntryDetails context position name this)
  = after (completionItems context position this).
Proof.
  unfold completionEntryDetails, getCompletionEntryDetails, bind.
  fold completionItems.
  destruct (completionItems context position this) as [c this'].
  now destruct (find _ _).
Qed.

Lemma getCompletionEntryDetails_result (this : HtmlTemplateLanguageService)
    (context : TemplateContext) (position : LineAndCharacter)
    (name : Js.String) :
  result (completionEntryDetails context position name this)
  = match List.find (fun x => Js.str_eqb (label x) name)
            (items (Js.contents
                      (result (completionItems context position this)))) with
    | Some item => translateCompletionItemsToCompletionEntryDetails item
    | None =>
        {| details_name := name;
           details_kind := ScriptElementKind.unknown;
           details_kindModifiers := Js.lit "";
           details_tags := [];
           details_displayParts := toDisplayParts (Some name);
           details_documentation := [] |}
    end.
Proof.
  unfold completionEntryDetails, getCompletionEntryDetails, bind.
  fold completionItems.
  destruct (completionItems context position this) as [c this'].
  now destruct (find _ _).
Qed.

(** X1.  The cache holds one key.  After a request for one key, a request
    that differs from it in the file name, the line, the character or the
    text misses the cache and asks the delegated [doComplete] again. *)
Theorem cache_holds_one_key (this : HtmlTemplateLanguageService)
    (context1 context2 : TemplateContext)
    (position1 position2 : LineAndCharacter) :
  fileName context1 <> fileName context2
  \/ line position1 <> line position2
  \/ character position1 <> character position2
  \/ text context1 <> text context2 ->
  let this2 := after (completionItems context2 position2 this) in
  getCached (_completionsCache this2) context1 position1 = None
  /\ count_calls is_doComplete
       (history (after (completionItems context1 position1 this2)))
     = (2 + count_calls is_doComplete (history this2))%nat.
Proof.
  intros Hdiff this2.
  assert (Hno : ~ key_matches (_completionsCache this2) context1 position1).
  { intros (Hf1 & (q1 & Hq1 & Hl1 & Hc1) & Ht1).
    destruct (key_matches_after_request this context2 position2)
      as (Hf2 & (q2 & Hq2 & Hl2 & Hc2) & Ht2).
    fold this2 in Hf2, Hq2, Ht2.
    rewrite Hf1 in Hf2. rewrite Hq1 in Hq2. rewrite Ht1 in Ht2.
    injection Hf2 as Hf2. injection Hq2 as Hq2. injection Ht2 as Ht2.
    subst q2. destruct Hdiff as [H|[H|[H|H]]]; congruence. }
  split.
  - now apply getCached_None.
  - now apply getCompletionItems_key_change_recomputes.
Qed.

Lemma getQuickInfoAtPosition_cache (this : HtmlTemplateLanguageService)
    (context : TemplateContext) (position : LineAndCharacter) :
  _completionsCache (after (quickInfoAtPosition context position this))
  = _completionsCache this.
Proof.
  unfold quickInfoAtPosition, getQuickInfoAtPosition, bind, invoke. cbn.
  now destruct (doHover _ _ _ _).
Qed.

Lemma getFormattingEditsForRange_cache (this : HtmlTemplateLanguageService)
    (context : TemplateContext) (start end_ : Z) (settings : EditorSettings) :
  _completionsCache
    (after (formattingEditsForRange context start end_ settings this))
  = _completionsCache this.
Proof.
  unfold formattingEditsForRange, getFormattingEditsForRange.
  destruct (format_enabled (configuration this)); simpl; [|reflexivity].
  unfold bind, invoke; cbn.
  now destruct (adjustedEnd context end_ <=? adjustedStart context start).
Qed.

(** X2.  Hover and formatting requests, for whatever template, leave the
    completions cache as it is: a completion request repeated after them
    is still answered from the cache, with the stored list and without a
    delegated call. *)
Theorem hover_and_formatting_keep_the_cache
    (this : HtmlTemplateLanguageService)
    (context hovered formatted : TemplateContext)
    (position hoverPosition : LineAndCharacter)
    (start end_ : Z) (settings : EditorSettings) :
  let this1 := after (completionItems context position this) in
  let this2 := after (quickInfoAtPosition hovered hoverPosition this1) in
  let this3 :=
    after (formattingEditsForRange formatted start end_ settings this2) in
  _completionsCache this3 = _completionsCache this1
  /\ exists cached,
       _completions (_completionsCache this1) = Some cached
       /\ completionItems context position this3 = (cached, this3).
Proof.
  intros this1 this2 this3.
  assert (Hc : _completionsCache this3 = _completionsCache this1).
  { unfold this3. rewrite getFormattingEditsForRange_cache.
    unfold this2. apply getQuickInfoAtPosition_cache. }
  split; [exact Hc|].
  destruct (getCompletionItems_caches HTMLDocument parseHTMLDocument doComplete this
              context position) as [c Hget].
  fold completionItems in Hget. fold this1 in Hget.
  exists c. split.
  - now apply getCached_Some in Hget.
  - apply getCompletionItems_hit. now rewrite Hc.
Qed.

(** X3.  A details request that follows a completions request for the
    same template and position is answered from the cache: it makes no
    delegated call and leaves the instance as it was, whatever the name. *)
Theorem details_after_completions_ask_nothing
    (this : HtmlTemplateLanguageService)
    (context : TemplateContext) (position : LineAndCharacter)
    (name : Js.String) :
  let this1 := after (completionsAtPosition context position this) in
  after (completionEntryDetails context position name this1) = this1.
Proof.
  intros this1. rewrite getCompletionEntryDetails_after.
  unfold this1. rewrite getCompletionsAtPosition_unfold. simpl.
  apply getCompletionItems_repeat_is_silent.
Qed.

(** X4.  When items of the current list have the requested name, the
    details are those of the first such item: its label as the name, the
    modifier ["declare"], its kind, detail and documentation. *)
Theorem details_of_the_first_match (this : HtmlTemplateLanguageService)
    (context : TemplateContext) (position : LineAndCharacter)
    (name : Js.String) (before rest : list CompletionItem)
    (item : CompletionItem) :
  items (Js.contents (result (completionItems context position this)))
  = before ++ item :: rest ->
  (forall x, In x before -> label x <> name) ->
  label item = name ->
  let details :=
    result (completionEntryDetails context position name this) in
  details = translateCompletionItemsToCompletionEntryDetails item
  /\ details_name details = name
  /\ details_kindModifiers details = Js.lit "declare".
Proof.
  intros Hitems Hbefore Hitem details. subst details.
  rewrite getCompletionEntryDetails_result, Hitems.
  rewrite find_first_match.
  - repeat split. exact Hitem.
  - intros y Hy. apply Hbefore in Hy.
    destruct (Js.str_eqb (label y) name) eqn:E; [|reflexivity].
    apply str_eqb_eq in E. contradiction.
  - now apply str_eqb_eq.
Qed.

(** X5.  The completion info has one entry per item of the current list,
    in the order of the list, named by the item's label, with sort text
    ["0"] and no modifiers; the request changes the instance exactly as
    fetching the items does. *)
Theorem completion_entries_follow_the_items
    (this : HtmlTemplateLanguageService)
    (context : TemplateContext) (position : LineAndCharacter) :
  let fetched := completionItems context position this in
  let info := result (completionsAtPosition context position this) in
  List.map entry_name (entries info)
  = List.map label (items (Js.contents (result fetched)))
  /\ List.map entry_kind (entries info)
     = List.map
         (fun item =>
            match kind item with
            | Some k => lookup_kind spec_kind_table k
            | None => ScriptElementKind.unknown
            end)
         (items (Js.contents (result fetched)))
  /\ Forall
       (fun e =>
          entry_sortText e = Js.lit "0" /\ entry_kindModifiers e = Js.lit "")
       (entries info)
  /\ after (completionsAtPosition context position this) = after fetched.
Proof.
  intros fetched info. subst info.
  rewrite getCompletionsAtPosition_unfold. fold fetched. simpl.
  rewrite !List.map_map. simpl.
  split; [reflexivity|]. split; [|split; [|reflexivity]].
  - apply List.map_ext. intros item. apply kindOfItem_lookup.
  - apply Forall_forall. intros e He. apply in_map_iff in He.
    destruct He as (x & <- & _). split; reflexivity.
Qed.

Lemma getCompletionItems_repeat_contents
    (this : HtmlTemplateLanguageService)
    (context : TemplateContext) (position : LineAndCharacter) :
  (forall h h' doc p d,
     Js.contents (doComplete h doc p d)
     = Js.contents (doComplete h' doc p d)) ->
  let first := completionItems context position this in
  Js.contents (result (completionItems context position (after first)))
  = Js.contents (result first).
Proof.
  intros Hpure first. subst first. unfold completionItems.
  destruct (getCached (_completionsCache this) context position)
    as [c|] eqn:E.
  - rewrite (getCompletionItems_hit _ _ _ _ _ _ _ E). simpl.
    now rewrite (getCompletionItems_hit _ _ _ _ _ _ _ E).
  - rewrite (getCompletionItems_miss _ _ _ _ _ _ E). simpl.
    erewrite getCompletionItems_hit
      by (simpl; apply getCached_updateCached).
    simpl. apply Hpure.
Qed.

(** X12.  With a delegated service whose [doComplete] answers with the
    same items whatever was asked before, the details requested after a completions
    request agree with the completion info: for a name that some entry
    has, the details carry the name and the kind of the first such entry;
    for a name that no entry has, the name itself and ["unknown"]. *)
Theorem details_agree_with_the_entries (this : HtmlTemplateLanguageService)
    (context : TemplateContext) (position : LineAndCharacter)
    (name : Js.String) :
  (forall h h' doc p d,
     Js.contents (doComplete h doc p d)
     = Js.contents (doComplete h' doc p d)) ->
  let first := completionsAtPosition context position this in
  let details :=
    result (completionEntryDetails context position name (after first)) in
  match List.find (fun e => Js.str_eqb (entry_name e) name)
          (entries (result first)) with
  | Some e =>
      details_name details = entry_name e
      /\ details_kind details = entry_kind e
  | None =>
      details_name details = name
      /\ details_kind details = ScriptElementKind.unknown
  end.
Proof.
  intros Hpure first details. subst details first.
  rewrite getCompletionEntryDetails_result.
  rewrite getCompletionsAtPosition_unfold. simpl.
  pose proof (getCompletionItems_repeat_contents this context position Hpure)
    as Hsame.
  simpl in Hsame. rewrite Hsame.
  rewrite find_map_entries.
  destruct (find _ (items _)) as [item|]; simpl; split; reflexivity.
Qed.

End CompletionProperties.

(** ** Further properties of hover and formatting *)

Lemma leading_run_le (s : Js.String) (n : nat) :
  leading_run s n -> (n <= List.length s)%nat.
Proof.
  intros (w & rest & -> & _ & ->). rewrite length_app. simpl. lia.
Qed.

Lemma leading_run_white (s : Js.String) (n : nat) :
  leading_run s n ->
  Forall (fun c => RegExp.is_space c = true) (List.firstn n s).
Proof.
  intros (w & rest & -> & Hw & ->).
  replace (w ++ RegExp.newline :: rest)
    with ((w ++ [RegExp.newline]) ++ rest) by now rewrite <- app_assoc.
  replace (S (List.length w)) with (List.length (w ++ [RegExp.newline]) + 0)%nat
    by (rewrite length_app; simpl; lia).
  rewrite firstn_app_2. simpl. rewrite app_nil_r.
  apply Forall_app. split; [exact Hw|].
  constructor; [apply newline_is_space | constructor].
Qed.

Lemma trailing_run_white (s : Js.String) (n : nat) :
  trailing_run s n ->
  Forall (fun c => RegExp.is_space c = true)
    (List.skipn (List.length s - n) s).
Proof.
  intros (before & w & -> & Hw & ->).
  replace (List.length (before ++ RegExp.newline :: w) - S (List.length w))%nat
    with (List.length before)
    by (rewrite length_app; simpl; lia).
  rewrite skipn_app, skipn_all, Nat.sub_diag. simpl.
  constructor; [apply newline_is_space | exact Hw].
Qed.

Lemma runs_of_a_newline (before after_ : Js.String) :
  Forall (fun c => RegExp.is_space c = true) before ->
  Forall (fun c => RegExp.is_space c = true) after_ ->
  leading_run (before ++ RegExp.newline :: after_) (S (List.length before))
  /\ trailing_run (before ++ RegExp.newline :: after_)
       (S (List.length after_)).
Proof.
  intros Hb Ha. split.
  - now exists before, after_.
  - now exists before, after_.
Qed.

(** A leading and a trailing run do not meet when the text has a code
    unit that is not white space. *)
Lemma runs_apart (s : Js.String) (n m : nat) (c : N) :
  leading_run s n -> trailing_run s m ->
  In c s -> RegExp.is_space c = false ->
  (n + m < List.length s)%nat.
Proof.
  intros (w & rest & Hs & Hw & ->) (before & w' & Hs' & Hw' & ->) Hin Hc.
  assert (Hnot : forall l, Forall (fun c => RegExp.is_space c = true) l ->
                           ~ In c l).
  { intros l Hl Hcl. rewrite Forall_forall in Hl. apply Hl in Hcl.
    congruence. }
  assert (Hnl : c <> RegExp.newline).
  { intros ->. now rewrite newline_is_space in Hc. }
  assert (E : (w ++ [RegExp.newline]) ++ rest
              = before ++ RegExp.newline :: w').
  { rewrite <- app_assoc. simpl. congruence. }
  apply app_eq_app in E. destruct E as (l & [[E1 E2]|[E1 E2]]).
  - exfalso. subst s.
    apply in_app_or in Hin. destruct Hin as [Hin|[Hin|Hin]].
    + now apply (Hnot w).
    + congruence.
    + apply (Hnot (RegExp.newline :: w')).
      * constructor; [apply newline_is_space | exact Hw'].
      * rewrite E2. apply in_or_app. now right.
  - assert (Hl : In c l).
    { rewrite Hs', E1 in Hin. rewrite !in_app_iff in Hin. simpl in Hin.
      destruct Hin as [[[Hin|[Hin|[]]]|Hin]|[Hin|Hin]];
        try congruence; try assumption.
      - now apply Hnot in Hin.
      - now apply Hnot in Hin. }
    rewrite Hs', E1, !length_app. simpl.
    destruct l as [|x l]; [contradiction|]. simpl. lia.
Qed.

Lemma leading_run_before_content (s : Js.String) (n : nat) (c : N) :
  leading_run s n -> In c s -> RegExp.is_space c = false ->
  (n < List.length s)%nat.
Proof.
  intros (w & rest & -> & Hw & ->) Hin Hc.
  rewrite length_app. simpl.
  destruct rest as [|x rest]; [|simpl; lia].
  exfalso. apply in_app_or in Hin. destruct Hin as [Hin|[<-|[]]].
  - rewrite Forall_forall in Hw. apply Hw in Hin. congruence.
  - now rewrite newline_is_space in Hc.
Qed.

Lemma trailing_run_after_content (s : Js.String) (n : nat) (c : N) :
  trailing_run s n -> In c s -> RegExp.is_space c = false ->
  (n < List.length s)%nat.
Proof.
  intros (before & w & -> & Hw & ->) Hin Hc.
  rewrite length_app. simpl.
  destruct before as [|x before]; [|simpl; lia].
  exfalso. simpl in Hin. destruct Hin as [<-|Hin].
  - now rewrite newline_is_space in Hc.
  - rewrite Forall_forall in Hw. apply Hw in Hin. congruence.
Qed.

Section HoverAndFormattingProperties.

Variable HTMLDocument : Type.
Variable parseHTMLDocument : list Call -> TextDocument -> HTMLDocument.
Variable doHover :
  list Call -> TextDocument -> Position -> HTMLDocument -> option Hover.
Variable format :
  list Call -> TextDocument -> Range -> HTMLFormatConfiguration ->
  list TextEdit.

Let quickInfoAtPosition := getQuickInfoAtPosition parseHTMLDocument doHover.
Let formattingEditsForRange :=
  getFormattingEditsForRange parseHTMLDocument format.

(** X10.  A hover request always asks the delegated service twice, to
    parse and then to hover, and its result is absent exactly when the
    delegated hover is; a present result has the ["unknown"] kind, no
    display parts, and documentation parts of kind ["unknown"] only. *)
Theorem quick_info_is_absent_with_the_hover
    (this : HtmlTemplateLanguageService)
    (context : TemplateContext) (position : LineAndCharacter) :
  let doc := createVirtualDocument context in
  let asked := quickInfoAtPosition context position this in
  (result asked = None <->
   doHover (Call_parseHTMLDocument doc :: history this) doc position
     (parseHTMLDocument (history this) doc) = None)
  /\ history (after asked)
     = Call_doHover doc position :: Call_parseHTMLDocument doc
       :: history this
  /\ (forall info,
        result asked = Some info ->
        info_kind info = ScriptElementKind.unknown
        /\ info_displayParts info = []
        /\ Forall (fun part => part_kind part = Js.lit "unknown")
             (info_documentation info)).
Proof.
  intros doc asked. subst asked.
  unfold quickInfoAtPosition, getQuickInfoAtPosition, bind, invoke.
  cbn. fold doc.
  destruct (doHover _ doc position _) as [hover|]; cbn.
  - split; [split; discriminate|]. split; [reflexivity|].
    intros info [= <-]. cbn. repeat split.
    destruct (hover_contents hover) as [[s|l v]|ms|k v]; cbn.
    + repeat constructor.
    + repeat constructor.
    + apply Forall_forall. intros part Hp. apply in_map_iff in Hp.
      destruct Hp as ([s|l v] & <- & _); reflexivity.
    + repeat constructor.
  - split; [split; reflexivity|]. split; [reflexivity|].
    intros info [=].
Qed.

Lemma getFormattingEditsForRange_enabled (this : HtmlTemplateLanguageService)
    (context : TemplateContext) (start end_ : Z) (settings : EditorSettings) :
  format_enabled (configuration this) = true ->
  adjustedStart context start < adjustedEnd context end_ ->
  let doc := createVirtualDocument context in
  let range :=
    toVsRange context (adjustedStart context start)
      (adjustedEnd context end_) in
  let options := formatOptions settings in
  formattingEditsForRange context start end_ settings this
  = (List.map
       (fun vsedit =>
          {| change_span := toTsSpan context (edit_range vsedit);
             change_newText := edit_newText vsedit |})
       (format (Call_parseHTMLDocument doc :: history this) doc range
          options),
     {| configuration := configuration this;
        _htmlLanguageService :=
          Some (Call_format doc range options
                :: Call_parseHTMLDocument doc :: history this);
        _completionsCache := _completionsCache this |}).
Proof.
  intros En Hlt doc range options.
  unfold formattingEditsForRange, getFormattingEditsForRange.
  rewrite En. unfold bind, invoke; cbn.
  destruct (Z.leb_spec (adjustedEnd context end_)
              (adjustedStart context start)) as [Hle|_]; [lia|].
  reflexivity.
Qed.

Lemma getFormattingEditsForRange_empty (this : HtmlTemplateLanguageService)
    (context : TemplateContext) (start end_ : Z) (settings : EditorSettings) :
  adjustedEnd context end_ <= adjustedStart context start ->
  let r := formattingEditsForRange context start end_ settings this in
  result r = []
  /\ List.filter is_format (history (after r))
     = List.filter is_format (history this).
Proof.
  intros Hle r. subst r.
  unfold formattingEditsForRange, getFormattingEditsForRange.
  destruct (format_enabled (configuration this)); simpl.
  - unfold bind, invoke; cbn.
    apply Z.leb_le in Hle. rewrite Hle. cbn. now split.
  - now split.
Qed.

(** X7.  When formatting is enabled and the adjusted range is not empty,
    the changes returned are the edits of the delegated formatter, one
    for one and in order, with their texts unchanged.  Where the context
    converts the two adjusted offsets to positions and back without
    change, an edit over exactly the range asked for comes back as a
    change over exactly the adjusted offsets. *)
Theorem formatting_edits_are_translated
    (this : HtmlTemplateLanguageService)
    (context : TemplateContext) (start end_ : Z) (settings : EditorSettings) :
  format_enabled (configuration this) = true ->
  adjustedStart context start < adjustedEnd context end_ ->
  let start' := adjustedStart context start in
  let end' := adjustedEnd context end_ in
  let doc := createVirtualDocument context in
  let range := toVsRange context start' end' in
  let edits :=
    format (Call_parseHTMLDocument doc :: history this) doc range
      (formatOptions settings) in
  let changes :=
    result (formattingEditsForRange context start end_ settings this) in
  List.map change_newText changes = List.map edit_newText edits
  /\ List.map change_span changes
     = List.map (fun e => toTsSpan context (edit_range e)) edits
  /\ (toOffset context (toPosition context start') = start' ->
      toOffset context (toPosition context end') = end' ->
      forall e,
        In e edits ->
        edit_range e = range ->
        In {| change_span :=
                {| span_start := start'; span_length := end' - start' |};
              change_newText := edit_newText e |}
           changes).
Proof.
  intros En Hlt start' end' doc range edits changes. subst changes.
  rewrite getFormattingEditsForRange_enabled by assumption.
  cbn [result fst]. fold doc start' end' range edits.
  rewrite !List.map_map. cbn.
  split; [reflexivity|]. split; [reflexivity|].
  intros Hs He e Hin Hr.
  apply in_map_iff. exists e. split; [|exact Hin].
  rewrite Hr. unfold toTsSpan, range, toVsRange; cbn.
  now rewrite Hs, He.
Qed.

(** X11.  The adjustments only shrink the range, by white space: the
    start moves forward and the end backward, each by no more than the
    length of the text, and for a request over the whole text every code
    unit in front of the adjusted start and every one from the adjusted
    end on is white space. *)
Theorem adjustments_skip_white_space_only
    (context : TemplateContext) (start end_ : Z) :
  let len := Z.of_nat (List.length (text context)) in
  start <= adjustedStart context start <= start + len
  /\ end_ - len <= adjustedEnd context end_ <= end_
  /\ Forall (fun c => RegExp.is_space c = true)
       (List.firstn (Z.to_nat (adjustedStart context 0)) (text context))
  /\ Forall (fun c => RegExp.is_space c = true)
       (List.skipn (Z.to_nat (adjustedEnd context len)) (text context)).
Proof.
  intros len. repeat split.
  - destruct (adjustedStart_spec context start)
      as [(n & _ & ->)|[_ ->]]; lia.
  - destruct (adjustedStart_spec context start)
      as [(n & [Hn _] & ->)|[_ ->]]; [|lia].
    apply leading_run_le in Hn. lia.
  - destruct (adjustedEnd_spec context end_)
      as [(n & [Hn _] & ->)|[_ ->]]; [|lia].
    apply trailing_run_le in Hn. lia.
  - destruct (adjustedEnd_spec context end_)
      as [(n & _ & ->)|[_ ->]]; lia.
  - destruct (adjustedStart_spec context 0)
      as [(n & [Hn _] & ->)|[_ ->]]; [|constructor].
    rewrite Z.add_0_l, Nat2Z.id. now apply leading_run_white.
  - destruct (adjustedEnd_spec context len)
      as [(n & [Hn _] & ->)|[_ ->]].
    + pose proof (trailing_run_le _ _ Hn).
      replace (Z.to_nat (len - Z.of_nat n))
        with (List.length (text context) - n)%nat by (unfold len; lia).
      now apply trailing_run_white.
    + unfold len. rewrite Nat2Z.id, skipn_all. constructor.
Qed.

(** X8.  A template text that is white space only and has a newline is
    never handed to the delegated formatter: for every range inside the
    text the result is empty and no format call is made. *)
Theorem blank_template_is_not_formatted
    (this : HtmlTemplateLanguageService)
    (context : TemplateContext) (start end_ : Z) (settings : EditorSettings) :
  Forall (fun c => RegExp.is_space c = true) (text context) ->
  In RegExp.newline (text context) ->
  0 <= start ->
  end_ <= Z.of_nat (List.length (text context)) ->
  let r := formattingEditsForRange context start end_ settings this in
  result r = []
  /\ List.filter is_format (history (after r))
     = List.filter is_format (history this).
Proof.
  intros Hwhite Hnl Hstart Hend.
  apply getFormattingEditsForRange_empty.
  apply in_split in Hnl. destruct Hnl as (l1 & l2 & Ht).
  rewrite Ht in Hwhite. apply Forall_app in Hwhite.
  destruct Hwhite as [H1 H2]. inversion H2 as [|x l Hx H2']; subst x l.
  destruct (runs_of_a_newline _ _ H1 H2') as [Hlead Htrail].
  rewrite <- Ht in Hlead, Htrail.
  assert (Hlen : List.length (text context)
                 = (List.length l1 + S (List.length l2))%nat).
  { rewrite Ht, length_app. reflexivity. }
  destruct (adjustedStart_spec context start)
    as [(n & [_ Hn] & ->)|[Hnone _]]; [|now apply Hnone in Hlead].
  destruct (adjustedEnd_spec context end_)
    as [(m & [_ Hm] & ->)|[Hnone _]]; [|now apply Hnone in Htrail].
  apply Hn in Hlead. apply Hm in Htrail. lia.
Qed.

(** X9.  For a template text with a code unit that is not white space, a
    request over the whole text keeps a range that is not empty after the
    adjustments, and with formatting enabled the delegated formatter is
    called with it. *)
Theorem template_with_content_is_formatted
    (this : HtmlTemplateLanguageService)
    (context : TemplateContext) (settings : EditorSettings) (c : N) :
  In c (text context) ->
  RegExp.is_space c = false ->
  let len := Z.of_nat (List.length (text context)) in
  let start' := adjustedStart context 0 in
  let end' := adjustedEnd context len in
  start' < end'
  /\ (format_enabled (configuration this) = true ->
      let doc := createVirtualDocument context in
      history
        (after (formattingEditsForRange context 0 len settings this))
      = Call_format doc (toVsRange context start' end')
          (formatOptions settings)
        :: Call_parseHTMLDocument doc :: history this).
Proof.
  intros Hin Hc len start' end'.
  assert (Hlt : start' < end').
  { unfold start', end', len.
    assert (0 < List.length (text context))%nat
      by (destruct (text context); [contradiction | simpl; lia]).
    destruct (adjustedStart_spec context 0)
      as [(n & [Hn _] & ->)|[_ ->]];
      destruct (adjustedEnd_spec context
                  (Z.of_nat (List.length (text context))))
        as [(m & [Hm _] & ->)|[_ ->]].
    - pose proof (runs_apart _ _ _ _ Hn Hm Hin Hc). lia.
    - pose proof (leading_run_before_content _ _ _ Hn Hin Hc). lia.
    - pose proof (trailing_run_after_content _ _ _ Hm Hin Hc). lia.
    - lia. }
  split; [exact Hlt|].
  intros En doc.
  now rewrite getFormattingEditsForRange_enabled.
Qed.

End HoverAndFormattingProperties.

(** ** The further properties at the example inputs *)

Lemma cache_holds_one_key_witness :
  let this2 :=
    after (getCompletionItems example_parseHTMLDocument example_doComplete
             example_context (mkPosition 0 3) example_bridge) in
  getCached (_completionsCache this2) example_context (mkPosition 0 2) = None
  /\ count_calls is_doComplete
       (history
          (after (getCompletionItems example_parseHTMLDocument
                    example_doComplete example_context (mkPosition 0 2)
                    this2)))
     = (2 + count_calls is_doComplete (history this2))%nat.
Proof.
  apply (cache_holds_one_key unit example_parseHTMLDocument
           example_doComplete example_bridge example_context example_context
           (mkPosition 0 2) (mkPosition 0 3)).
  right. right. left. simpl. discriminate.
Defined.

Lemma details_of_the_first_match_witness :
  let details :=
    result (getCompletionEntryDetails example_parseHTMLDocument
              example_doComplete example_context (mkPosition 0 3)
              (Js.lit "div") example_bridge) in
  details
  = translateCompletionItemsToCompletionEntryDetails
      (mkCompletionItem (Js.lit "div") (Some CompletionItemKind.Property)
         None None)
  /\ details_name details = Js.lit "div"
  /\ details_kindModifiers details = Js.lit "declare".
Proof.
  apply (details_of_the_first_match unit example_parseHTMLDocument
           example_doComplete example_bridge example_context
           (mkPosition 0 3) (Js.lit "div") [] []
           (mkCompletionItem (Js.lit "div")
              (Some CompletionItemKind.Property) None None)).
  - reflexivity.
  - intros x [].
  - reflexivity.
Defined.

Lemma details_agree_with_the_entries_witness :
  let first :=
    getCompletionsAtPosition example_parseHTMLDocument example_doComplete
      example_context (mkPosition 0 3) example_bridge in
  let details :=
    result (getCompletionEntryDetails example_parseHTMLDocument
              example_doComplete example_context (mkPosition 0 3)
              (Js.lit "div") (after first)) in
  details_name details = Js.lit "div"
  /\ details_kind details = ScriptElementKind.memberVariableElement.
Proof.
  exact (details_agree_with_the_entries unit example_parseHTMLDocument
           example_doComplete example_bridge example_context
           (mkPosition 0 3) (Js.lit "div")
           (fun h h' doc p d => eq_refl)).
Defined.

Lemma formatting_edits_are_translated_witness :
  let settings := mkEditorSettings (Some 4) (Some true) in
  In {| change_span := {| span_start := 1; span_length := 8 |};
        change_newText := Js.lit "<p>x</p>" |}
     (result
        (getFormattingEditsForRange example_parseHTMLDocument
           example_reformat example_paragraph 0 9 settings example_bridge)).
Proof.
  intros settings.
  apply (proj2 (proj2
           (formatting_edits_are_translated unit example_parseHTMLDocument
              example_reformat example_bridge example_paragraph 0 9
              settings eq_refl eq_refl))
           eq_refl eq_refl
           (mkTextEdit (mkRange (mkPosition 0 1) (mkPosition 0 9))
              (Js.lit "<p>x</p>"))).
  - left. reflexivity.
  - reflexivity.
Defined.

Lemma blank_template_is_not_formatted_witness :
  let r :=
    getFormattingEditsForRange example_parseHTMLDocument example_reformat
      example_blank_lines 0 4 (mkEditorSettings (Some 4) (Some true))
      example_bridge in
  result r = []
  /\ List.filter is_format (history (after r))
     = List.filter is_format (history example_bridge).
Proof.
  apply (blank_template_is_not_formatted unit example_parseHTMLDocument
           example_reformat example_bridge example_blank_lines 0 4
           (mkEditorSettings (Some 4) (Some true))).
  - simpl. repeat constructor.
  - simpl. left. reflexivity.
  - lia.
  - simpl. lia.
Defined.

Lemma template_with_content_is_formatted_witness :
  adjustedStart example_paragraph 0 < adjustedEnd example_paragraph 9.
Proof.
  apply (proj1
           (template_with_content_is_formatted unit example_parseHTMLDocument
              example_reformat example_bridge example_paragraph
              (mkEditorSettings (Some 4) (Some true)) 60%N
              (or_intror (or_introl eq_refl)) eq_refl)).
Defined.
